(** * Session state of the teams-frontend authentication core

    A shallow embedding of [TokenService] (token.service.ts) and
    [AuthService] (auth.service.ts): the browser's [localStorage] is a finite
    map from string keys to string values, the two [BehaviorSubject]s are
    fields holding their latest value, HTTP requests are entries of an
    in-flight list that are settled later by a success or a failure, and every
    observable side effect is appended to a chronological log. *)

From Stdlib Require Import ZArith NArith Ascii String List Lia Bool.
From stdpp Require Import base gmap strings list pretty.

Local Open Scope Z_scope.

(** ** JavaScript primitives used by the two services *)

Module JS.

(** The [number] values the services handle: integral values, or [NaN] as
    produced by [parseInt].  Integers are kept exact (type [Z]); an ECMAScript
    Number represents them exactly up to 2^53. *)
Inductive Number : Type :=
| NaN
| Num (z : Z).

(** ToBoolean on [string | null]: [null] and the empty string are falsy. *)
Definition truthy_string (v : option string) : bool :=
  match v with
  | None => false
  | Some EmptyString => false
  | Some (String _ _) => true
  end.

(** ToBoolean on [number | null]: [null], [0] and [NaN] are falsy. *)
Definition truthy_number (v : option Number) : bool :=
  match v with
  | None => false
  | Some NaN => false
  | Some (Num z) => negb (z =? 0)
  end.

(** [now >= expiry] on numbers: every comparison with [NaN] is false. *)
Definition ge_number (now : Z) (n : Number) : bool :=
  match n with
  | NaN => false
  | Num z => z <=? now
  end.

(** White space stripped by [parseInt] (TAB, LF, VT, FF, CR, SP, NBSP);
    strings are sequences of 8-bit code units here. *)
Definition isWhiteSpace (c : ascii) : bool :=
  let n := N_of_ascii c in
  ((9 <=? n) && (n <=? 13) || (n =? 32) || (n =? 160))%N.

Definition isDigit (c : ascii) : bool :=
  let n := N_of_ascii c in ((48 <=? n) && (n <=? 57))%N.

Definition digitValue (c : ascii) : N := (N_of_ascii c - 48)%N.

Fixpoint trimStart (s : string) : string :=
  match s with
  | EmptyString => EmptyString
  | String c s' => if isWhiteSpace c then trimStart s' else s
  end.

(** The longest prefix of radix-10 digits. *)
Fixpoint digitPrefix (s : string) : string :=
  match s with
  | EmptyString => EmptyString
  | String c s' => if isDigit c then String c (digitPrefix s') else EmptyString
  end.

(** The mathematical value of a digit string, most significant digit first. *)
Fixpoint mathInt (acc : N) (digits : string) : N :=
  match digits with
  | EmptyString => acc
  | String c digits' => mathInt (acc * 10 + digitValue c)%N digits'
  end.

(** [parseInt(inputString, 10)]: leading white space is skipped, one sign is
    accepted, the longest digit prefix is read and whatever follows it is
    ignored; with no digit at all the result is [NaN].  The result is the
    integer the digits denote; beyond 2^53 the code holds the double nearest
    to it. *)
Definition parseInt (inputString : string) : Number :=
  let trimmed := trimStart inputString in
  let sign :=
    match trimmed with
    | String c _ => if Ascii.eqb c "-" then -1 else 1
    | EmptyString => 1
    end in
  let unsigned :=
    match trimmed with
    | String c rest => if Ascii.eqb c "+" || Ascii.eqb c "-" then rest else trimmed
    | EmptyString => trimmed
    end in
  match digitPrefix unsigned with
  | EmptyString => NaN
  | digits => Num (sign * Z.of_N (mathInt 0 digits))
  end.

Fixpoint dropTrailingZeros (s : string) : string :=
  match s with
  | EmptyString => EmptyString
  | String c s' =>
      match dropTrailingZeros s' with
      | EmptyString => if Ascii.eqb c "0" then EmptyString else String c EmptyString
      | t => String c t
      end
  end.

(** Scientific notation of a positive integer with [n] decimal digits:
    [d.ddd e+(n-1)], the digits being those of the integer without its
    trailing zeros.  This is what ECMAScript prints for an integer of at
    most 15 significant digits, such as a power of ten; for longer ones it
    prints the shortest digits that identify the double. *)
Definition exponential (m : N) : string :=
  let all := pretty m in
  let n := String.length all in
  match dropTrailingZeros all with
  | EmptyString => all
  | String d EmptyString => String d ("e+" +:+ pretty (Nat.pred n))
  | String d more => String d ("." +:+ more +:+ "e+" +:+ pretty (Nat.pred n))
  end.

(** [Number.prototype.toString()] on an integral value: plain decimal digits
    below 10^21 in magnitude, scientific notation from 10^21 on.  All the
    digits of the integer are printed, as the code does for a safe integer;
    for a double beyond 2^53 the code prints the shortest digits that
    identify it, which are not computed here. *)
Definition Number_toString (x : Z) : string :=
  if Z.abs x <? 10 ^ 21 then pretty x
  else if x <? 0 then "-" +:+ exponential (Z.abs_N x)
  else exponential (Z.abs_N x).

End JS.

(** ** models/auth.model.ts *)

Module Model.

Record User : Type := mkUser {
  id : string;
  email : string;
  name : string }.

Record LoginRequest : Type := mkLoginRequest {
  login_email : string;
  login_password : string }.

Record LoginResponse : Type := mkLoginResponse {
  token : string;
  refreshToken : string;
  expiresIn : Z;
  user : User }.

Record SignupRequest : Type := mkSignupRequest {
  signup_email : string;
  signup_password : string;
  signup_name : string }.

End Model.

(** ** The state of one browser tab *)

(** Bodies of the POST requests the coordinator sends. *)
Inductive Body : Type :=
| EmptyBody
| LoginBody (loginRequest : Model.LoginRequest)
| SignupBody (signupRequest : Model.SignupRequest)
| RefreshBody (refreshToken : string)
| PasswordResetRequestBody (email : string)
| PasswordResetConfirmBody (token newPassword : string)
| ChangePasswordBody (oldPassword newPassword : string).

(** What is attached to an [http.post] observable before it is subscribed. *)
Inductive Pipeline : Type :=
| Bare                   (* the observable is returned as it is *)
| TapHandle_CatchFlag    (* login, signup: tap(handleAuthResponse), catchError(authenticated$.next(false); throw) *)
| TapHandle_CatchLogout  (* refreshToken: tap(handleAuthResponse), catchError(logout(); throw) *)
| ClearAuthObserver.     (* logout: subscribe({ next: clearAuth, error: clearAuth }) *)

Record Pending : Type := mkPending {
  url : string;
  body : Body;
  pipe : Pipeline }.

(** Side effects, in program order. *)
Inductive Effect : Type :=
| SetItem (key value : string)
| RemoveItem (key : string)
| HttpPost (url : string) (body : Body)
| CurrentUserNext (value : option Model.User)
| AuthenticatedNext (value : bool).

Record State : Type := mkState {
  localStorage : gmap string string;
  currentUser : option Model.User;   (* currentUser$.value *)
  authenticated : bool;              (* authenticated$.value *)
  inflight : list Pending;           (* requests sent and not yet settled *)
  log : list Effect }.

Definition localStorage_getItem (key : string) (s : State) : option string :=
  localStorage s !! key.

Definition localStorage_setItem (key value : string) (s : State) : State :=
  {| localStorage := <[key := value]> (localStorage s);
     currentUser := currentUser s;
     authenticated := authenticated s;
     inflight := inflight s;
     log := log s ++ [SetItem key value] |}.

Definition localStorage_removeItem (key : string) (s : State) : State :=
  {| localStorage := delete key (localStorage s);
     currentUser := currentUser s;
     authenticated := authenticated s;
     inflight := inflight s;
     log := log s ++ [RemoveItem key] |}.

(** [currentUser$.next(value)] *)
Definition currentUser_next (value : option Model.User) (s : State) : State :=
  {| localStorage := localStorage s;
     currentUser := value;
     authenticated := authenticated s;
     inflight := inflight s;
     log := log s ++ [CurrentUserNext value] |}.

(** [authenticated$.next(value)] *)
Definition authenticated_next (value : bool) (s : State) : State :=
  {| localStorage := localStorage s;
     currentUser := currentUser s;
     authenticated := value;
     inflight := inflight s;
     log := log s ++ [AuthenticatedNext value] |}.

(** Subscribing to [http.post(url, body)] sends the request. *)
Definition http_post (url : string) (body : Body) (pipe : Pipeline) (s : State) : State :=
  {| localStorage := localStorage s;
     currentUser := currentUser s;
     authenticated := authenticated s;
     inflight := inflight s ++ [mkPending url body pipe];
     log := log s ++ [HttpPost url body] |}.

(** The request at position [n] leaves the in-flight list when it settles. *)
Definition take_inflight (n : nat) (s : State) : State :=
  {| localStorage := localStorage s;
     currentUser := currentUser s;
     authenticated := authenticated s;
     inflight := delete n (inflight s);
     log := log s |}.

(** ** token.service.ts *)

Module TokenService.

Definition TOKEN_KEY : string := "auth_token".
Definition REFRESH_TOKEN_KEY : string := "refresh_token".
Definition TOKEN_EXPIRY_KEY : string := "token_expiry".

Definition setToken (token : string) (s : State) : State :=
  localStorage_setItem TOKEN_KEY token s.

Definition getToken (s : State) : option string :=
  localStorage_getItem TOKEN_KEY s.

Definition setRefreshToken (refreshToken : string) (s : State) : State :=
  localStorage_setItem REFRESH_TOKEN_KEY refreshToken s.

Definition getRefreshToken (s : State) : option string :=
  localStorage_getItem REFRESH_TOKEN_KEY s.

Definition setTokenExpiry (expiryTime : Z) (s : State) : State :=
  localStorage_setItem TOKEN_EXPIRY_KEY (JS.Number_toString expiryTime) s.

Definition getTokenExpiry (s : State) : option JS.Number :=
  let expiry := localStorage_getItem TOKEN_EXPIRY_KEY s in
  match expiry with
  | Some str => if JS.truthy_string expiry then Some (JS.parseInt str) else None
  | None => None
  end.

(** [now] is the value of [Date.now()]. *)
Definition isTokenExpired (now : Z) (s : State) : bool :=
  let expiry := getTokenExpiry s in
  if negb (JS.truthy_number expiry) then true
  else match expiry with
       | Some n => JS.ge_number now n
       | None => true
       end.

Definition clearTokens (s : State) : State :=
  let s := localStorage_removeItem TOKEN_KEY s in
  let s := localStorage_removeItem REFRESH_TOKEN_KEY s in
  localStorage_removeItem TOKEN_EXPIRY_KEY s.

Definition hasToken (s : State) : bool :=
  JS.truthy_string (getToken s).

End TokenService.

(** ** auth.service.ts *)

(** An [HttpErrorResponse], opaque to the coordinator. *)
Record HttpError : Type := mkHttpError {
  status : Z;
  message : string }.

(** Values travelling through the observables. *)
Inductive Payload : Type :=
| NullValue                                   (* null *)
| AuthPayload (response : Model.LoginResponse) (* { token, refreshToken, expiresIn, user } *)
| OtherPayload (text : string).                (* any other response body *)

(** How the server answers a request in flight. *)
Inductive Outcome : Type :=
| Success (value : Payload)
| Failure (error : HttpError).

(** What the subscriber of a returned observable receives. *)
Inductive Notification : Type :=
| Next (value : Payload)
| Error (error : HttpError).

(** The (cold) observables the coordinator returns. *)
Inductive Observable : Type :=
| Of (value : Payload)
| Post (url : string) (body : Body) (pipe : Pipeline).

Module AuthService.

Definition API_URL : string := "/api/auth".

(** [now] is the value of [Date.now()].  The expiry is the integer sum,
    which is the sum the code computes as long as the time,
    [expiresIn * 1000] and the sum are safe integers. *)
Definition handleAuthResponse (now : Z) (response : Model.LoginResponse) (s : State) : State :=
  let s := TokenService.setToken (Model.token response) s in
  let s := TokenService.setRefreshToken (Model.refreshToken response) s in
  let expiryTime := now + Model.expiresIn response * 1000 in
  let s := TokenService.setTokenExpiry expiryTime s in
  let s := currentUser_next (Some (Model.user response)) s in
  authenticated_next true s.

Definition clearAuth (s : State) : State :=
  let s := TokenService.clearTokens s in
  let s := currentUser_next None s in
  authenticated_next false s.

Definition login (loginRequest : Model.LoginRequest) : Observable :=
  Post (API_URL +:+ "/login") (LoginBody loginRequest) TapHandle_CatchFlag.

Definition signup (signupRequest : Model.SignupRequest) : Observable :=
  Post (API_URL +:+ "/signup") (SignupBody signupRequest) TapHandle_CatchFlag.

(** [logout] subscribes by itself: the request leaves at once and
    [clearAuth] runs when it settles. *)
Definition logout (s : State) : State :=
  http_post (API_URL +:+ "/logout") EmptyBody ClearAuthObserver s.

Definition refreshToken (s : State) : Observable * State :=
  let refreshToken := TokenService.getRefreshToken s in
  match refreshToken with
  | Some value =>
      if JS.truthy_string refreshToken
      then (Post (API_URL +:+ "/refresh") (RefreshBody value) TapHandle_CatchLogout, s)
      else (Of NullValue, logout s)
  | None => (Of NullValue, logout s)
  end.

Definition isAuthenticated (now : Z) (s : State) : bool :=
  TokenService.hasToken s && negb (TokenService.isTokenExpired now s).

(** The value behind [isAuthenticated$()]. *)
Definition isAuthenticated_stream (s : State) : bool := authenticated s.

Definition getCurrentUser (s : State) : option Model.User := currentUser s.

Definition getToken (s : State) : option string := TokenService.getToken s.

Definition requestPasswordReset (email : string) : Observable :=
  Post (API_URL +:+ "/password-reset/request") (PasswordResetRequestBody email) Bare.

Definition resetPassword (token newPassword : string) : Observable :=
  Post (API_URL +:+ "/password-reset/confirm") (PasswordResetConfirmBody token newPassword) Bare.

Definition changePassword (oldPassword newPassword : string) : Observable :=
  Post (API_URL +:+ "/change-password") (ChangePasswordBody oldPassword newPassword) Bare.

Definition initializeAuth (now : Z) (s : State) : State :=
  if TokenService.hasToken s && negb (TokenService.isTokenExpired now s)
  then authenticated_next true s
  else logout s.

(** The constructor, run once over the storage found at start-up. *)
Definition new (now : Z) (storage : gmap string string) : State :=
  initializeAuth now
    {| localStorage := storage; currentUser := None; authenticated := false;
       inflight := []; log := [] |}.

(** Subscribing to a returned observable: [of(null)] emits at once, a POST
    is sent and stays in flight. *)
Definition subscribe (o : Observable) (s : State) : State * list Notification :=
  match o with
  | Of value => (s, [Next value])
  | Post url body pipe => (http_post url body pipe s, [])
  end.

(** The request at position [n] of the in-flight list settles with
    [outcome] at time [now]: the callbacks attached to it run and the
    subscriber of the returned observable is notified.  [None]: there is no
    such request, or a success body is not the [LoginResponse] that the
    auth endpoints are typed to return. *)
Definition settle (now : Z) (n : nat) (outcome : Outcome) (s : State)
  : option (State * list Notification) :=
  match inflight s !! n with
  | None => None
  | Some request =>
      let s := take_inflight n s in
      match pipe request, outcome with
      | Bare, Success value => Some (s, [Next value])
      | Bare, Failure error => Some (s, [Error error])
      | TapHandle_CatchFlag, Success (AuthPayload response) =>
          Some (handleAuthResponse now response s, [Next (AuthPayload response)])
      | TapHandle_CatchFlag, Failure error =>
          Some (authenticated_next false s, [Error error])
      | TapHandle_CatchLogout, Success (AuthPayload response) =>
          Some (handleAuthResponse now response s, [Next (AuthPayload response)])
      | TapHandle_CatchLogout, Failure error =>
          Some (logout s, [Error error])
      | ClearAuthObserver, Success _ => Some (clearAuth s, [])
      | ClearAuthObserver, Failure _ => Some (clearAuth s, [])
      | _, Success _ => None
      end
  end.

End AuthService.

(** ** Vocabulary of the properties *)

(** A string that starts with a decimal digit. *)
Definition startsWithDigit (s : string) : bool :=
  match s with
  | String c _ => JS.isDigit c
  | EmptyString => false
  end.

Definition stripSign (s : string) : string :=
  match s with
  | String c rest => if Ascii.eqb c "+" || Ascii.eqb c "-" then rest else s
  | EmptyString => EmptyString
  end.

(** A string in which an integer can be read at the front: optional white
    space, at most one sign, then a digit. *)
Definition hasLeadingInteger (s : string) : bool :=
  startsWithDigit (stripSign (JS.trimStart s)).

Fixpoint allDigits (s : string) : bool :=
  match s with
  | EmptyString => true
  | String c s' => JS.isDigit c && allDigits s'
  end.

(** A numeric string: a decimal integer, nothing before or after it. *)
Definition isDecimalInteger (s : string) : bool :=
  match s with
  | EmptyString => false
  | String c rest =>
      if Ascii.eqb c "-" then startsWithDigit rest && allDigits rest
      else JS.isDigit c && allDigits rest
  end.

(** A tab that holds nothing yet. *)
Definition empty_state : State :=
  {| localStorage := ∅; currentUser := None; authenticated := false;
     inflight := []; log := [] |}.

(** The three Token Store entries are absent. *)
Definition store_cleared (s : State) : Prop :=
  TokenService.getToken s = None /\
  TokenService.getRefreshToken s = None /\
  localStorage_getItem TokenService.TOKEN_EXPIRY_KEY s = None.

(** The logged-out state: user absent, flag false, store cleared. *)
Definition logged_out (s : State) : Prop :=
  authenticated s = false /\ currentUser s = None /\ store_cleared s.

(** The store and the two streams are the same in both states. *)
Definition session_unchanged (s s' : State) : Prop :=
  localStorage s' = localStorage s /\
  currentUser s' = currentUser s /\
  authenticated s' = authenticated s.

(** The observable [o] is the one whose request [p] is in flight. *)
Definition issued_by (o : Observable) (p : Pending) : Prop :=
  o = Post (url p) (body p) (pipe p).

(** The request [p] was sent by the named operation. *)
Definition sent_by_login (p : Pending) : Prop :=
  exists loginRequest, issued_by (AuthService.login loginRequest) p.

Definition sent_by_signup (p : Pending) : Prop :=
  exists signupRequest, issued_by (AuthService.signup signupRequest) p.

Definition sent_by_refreshToken (p : Pending) : Prop :=
  exists s, issued_by (fst (AuthService.refreshToken s)) p.

Definition sent_by_logout (p : Pending) : Prop :=
  exists s, last (inflight (AuthService.logout s)) = Some p.

Definition sent_by_password_operation (p : Pending) : Prop :=
  (exists email, issued_by (AuthService.requestPasswordReset email) p) \/
  (exists token newPassword, issued_by (AuthService.resetPassword token newPassword) p) \/
  (exists oldPassword newPassword,
     issued_by (AuthService.changePassword oldPassword newPassword) p).

(** The effect of the shared auth-response handler, from [s] to [s']. *)
Definition auth_response_applied (now : Z) (response : Model.LoginResponse)
    (s s' : State) : Prop :=
  localStorage s'
  = <[TokenService.TOKEN_EXPIRY_KEY :=
        JS.Number_toString (now + Model.expiresIn response * 1000)]>
      (<[TokenService.REFRESH_TOKEN_KEY := Model.refreshToken response]>
         (<[TokenService.TOKEN_KEY := Model.token response]> (localStorage s))) /\
  currentUser s' = Some (Model.user response) /\
  authenticated s' = true.

(** What the subscriber is told when a bare request settles. *)
Definition passed_through (outcome : Outcome) : Notification :=
  match outcome with
  | Success value => Next value
  | Failure error => Error error
  end.

(** Sample data for the concrete runs. *)
Definition alice : Model.User := Model.mkUser "u1" "alice@example.org" "Alice".

Definition alice_credentials : Model.LoginRequest :=
  Model.mkLoginRequest "alice@example.org" "secret".

Definition alice_signup : Model.SignupRequest :=
  Model.mkSignupRequest "alice@example.org" "secret" "Alice".

Definition alice_response : Model.LoginResponse :=
  Model.mkLoginResponse "t" "r" 60 alice.

Definition server_down : HttpError := mkHttpError 503 "Service Unavailable".

(** The state reached when a tab starts on an empty storage, the start-up
    logout settles, and Alice then logs in successfully at time
    1700000000000. *)
Definition alice_logged_in : State :=
  let s := AuthService.new 1699999999000 ∅ in
  let s := match AuthService.settle 1699999999500 0 (Success (OtherPayload "{}")) s with
           | Some (s', _) => s'
           | None => s
           end in
  let s := fst (AuthService.subscribe (AuthService.login alice_credentials) s) in
  match AuthService.settle 1700000000000 0 (Success (AuthPayload alice_response)) s with
  | Some (s', _) => s'
  | None => s
  end.

(** The state of a tab that starts at time 1700000000000 on a storage
    holding a valid access token and its expiry but no refresh token. *)
Definition restored_without_refresh_token : State :=
  AuthService.new 1700000000000
    (<["token_expiry" := "1700000060000"]> (<["auth_token" := "t"]> ∅)).

(** ** Integers that a JavaScript number holds exactly *)

(** [Number.MAX_SAFE_INTEGER], 2^53 - 1. *)
Definition MAX_SAFE_INTEGER : Z := 9007199254740991.

(** [Number.isSafeInteger] on an integer: up to this magnitude a number is
    the integer itself, its sums and products are the integer ones as long
    as they stay in the range, and [toString()] prints all its digits. *)
Definition isSafeInteger (x : Z) : Prop := Z.abs x <= MAX_SAFE_INTEGER.

(** The arithmetic of the auth-response handler is exact: the time of the
    response, [expiresIn * 1000] and their sum are safe integers. *)
Definition exact_expiry (now : Z) (response : Model.LoginResponse) : Prop :=
  isSafeInteger now /\
  isSafeInteger (Model.expiresIn response * 1000) /\
  isSafeInteger (now + Model.expiresIn response * 1000).

(** ** Runs of the coordinator *)

(** A key of [localStorage] that is none of the three Token Store keys. *)
Definition foreign_key (key : string) : Prop :=
  key <> TokenService.TOKEN_KEY /\
  key <> TokenService.REFRESH_TOKEN_KEY /\
  key <> TokenService.TOKEN_EXPIRY_KEY.

(** A call of one of the seven operations by the UI layer; the observable
    an operation returns is subscribed at once. *)
Inductive Call : Type :=
| CallLogin (loginRequest : Model.LoginRequest)
| CallSignup (signupRequest : Model.SignupRequest)
| CallLogout
| CallRefreshToken
| CallRequestPasswordReset (email : string)
| CallResetPassword (token newPassword : string)
| CallChangePassword (oldPassword newPassword : string).

Definition call (c : Call) (s : State) : State :=
  match c with
  | CallLogin loginRequest =>
      fst (AuthService.subscribe (AuthService.login loginRequest) s)
  | CallSignup signupRequest =>
      fst (AuthService.subscribe (AuthService.signup signupRequest) s)
  | CallLogout => AuthService.logout s
  | CallRefreshToken =>
      fst (AuthService.subscribe (fst (AuthService.refreshToken s))
             (snd (AuthService.refreshToken s)))
  | CallRequestPasswordReset email =>
      fst (AuthService.subscribe (AuthService.requestPasswordReset email) s)
  | CallResetPassword token newPassword =>
      fst (AuthService.subscribe (AuthService.resetPassword token newPassword) s)
  | CallChangePassword oldPassword newPassword =>
      fst (AuthService.subscribe (AuthService.changePassword oldPassword newPassword) s)
  end.

(** What can happen to a tab: an operation is called, or the request at some
    position of the in-flight list settles at some time. *)
Inductive Event : Type :=
| Calls (c : Call)
| Settles (now : Z) (n : nat) (outcome : Outcome).

(** An event that cannot happen (no such request in flight) changes nothing. *)
Definition step (e : Event) (s : State) : State :=
  match e with
  | Calls c => call c s
  | Settles now n outcome =>
      match AuthService.settle now n outcome s with
      | Some (s', _) => s'
      | None => s
      end
  end.

Definition run (events : list Event) (s : State) : State :=
  fold_left (fun s e => step e s) events s.

(** What every state of a run satisfies: a current user comes with the three
    entries, a true flag with an access token and an expiry. *)
Definition session_invariant (s : State) : Prop :=
  (currentUser s <> None ->
   TokenService.getToken s <> None /\
   TokenService.getRefreshToken s <> None /\
   localStorage_getItem TokenService.TOKEN_EXPIRY_KEY s <> None) /\
  (authenticated s = true ->
   TokenService.getToken s <> None /\
   localStorage_getItem TokenService.TOKEN_EXPIRY_KEY s <> None).

(** The state the constructor starts from. *)
Definition fresh (storage : gmap string string) : State :=
  {| localStorage := storage; currentUser := None; authenticated := false;
     inflight := []; log := [] |}.

(** * Properties *)

(** ** Concrete runs *)

Section Examples.

Example toString_timestamp : JS.Number_toString 1700000060000 = "1700000060000".
Proof. reflexivity. Qed.

Example toString_negative : JS.Number_toString (-42) = "-42".
Proof. reflexivity. Qed.

Example toString_1e21 : JS.Number_toString (10 ^ 21) = "1e+21".
Proof. vm_compute. reflexivity. Qed.

Example toString_15e20 : JS.Number_toString (-15 * 10 ^ 20) = "-1.5e+21".
Proof. vm_compute. reflexivity. Qed.

Example parseInt_timestamp : JS.parseInt "1700000060000" = JS.Num 1700000060000.
Proof. reflexivity. Qed.

Example parseInt_zero : JS.parseInt "0" = JS.Num 0.
Proof. reflexivity. Qed.

Example parseInt_padded : JS.parseInt "  +12.5" = JS.Num 12.
Proof. reflexivity. Qed.

Example parseInt_text : JS.parseInt "tomorrow" = JS.NaN.
Proof. reflexivity. Qed.

Example parseInt_sign_alone : JS.parseInt "-" = JS.NaN.
Proof. reflexivity. Qed.

Example parseInt_1e21 : JS.parseInt "1e+21" = JS.Num 1.
Proof. reflexivity. Qed.

(** Start-up on an empty storage sends the logout notification. *)
Example new_on_empty_storage :
  log (AuthService.new 1699999999000 ∅) = [HttpPost "/api/auth/logout" EmptyBody] /\
  authenticated (AuthService.new 1699999999000 ∅) = false.
Proof. vm_compute. split; reflexivity. Qed.

Example alice_logged_in_session :
  map_to_list (localStorage alice_logged_in)
  = [("auth_token", "t"); ("refresh_token", "r"); ("token_expiry", "1700000060000")] /\
  currentUser alice_logged_in = Some alice /\
  authenticated alice_logged_in = true /\
  inflight alice_logged_in = [].
Proof. vm_compute. repeat split. Qed.

(** The cached flag and the snapshot part ways once the expiry has passed. *)
Example flag_and_snapshot_diverge :
  AuthService.isAuthenticated 1700000059999 alice_logged_in = true /\
  AuthService.isAuthenticated 1700000060000 alice_logged_in = false /\
  AuthService.isAuthenticated_stream alice_logged_in = true.
Proof. vm_compute. repeat split. Qed.

(** With a refresh token stored, [refreshToken()] posts it. *)
Example refreshToken_with_token :
  AuthService.refreshToken alice_logged_in
  = (Post "/api/auth/refresh" (RefreshBody "r") TapHandle_CatchLogout, alice_logged_in).
Proof. vm_compute. reflexivity. Qed.

End Examples.

(** ** Printing and parsing decimal integers *)

Section Decimal.

Local Open Scope N_scope.

Lemma digit_cases (d : N) :
  d < 10 ->
  d = 0 \/ d = 1 \/ d = 2 \/ d = 3 \/ d = 4 \/
  d = 5 \/ d = 6 \/ d = 7 \/ d = 8 \/ d = 9.
Proof. lia. Qed.

Lemma isDigit_pretty_N_char (d : N) : JS.isDigit (pretty_N_char d) = true.
Proof. unfold pretty_N_char. repeat case_match; reflexivity. Qed.

Lemma digitValue_pretty_N_char (d : N) :
  d < 10 -> JS.digitValue (pretty_N_char d) = d.
Proof.
  intros Hd. destruct (digit_cases d Hd) as [->|[->|[->|[->|[->|[->|[->|[->|[->| ->]]]]]]]]];
    reflexivity.
Qed.

Lemma digitPrefix_no_digit (s : string) :
  startsWithDigit s = false -> JS.digitPrefix s = EmptyString.
Proof. destruct s as [|c s]; simpl; [reflexivity|]. intros ->. reflexivity. Qed.

Lemma pretty_N_go_app (x : N) : forall s rest,
  pretty_N_go x s +:+ rest = pretty_N_go x (s +:+ rest).
Proof.
  induction (N.lt_wf_0 x) as [x _ IH]; intros s rest.
  destruct (N.eq_dec x 0) as [->|Hx].
  - rewrite !pretty_N_go_0. reflexivity.
  - rewrite (pretty_N_go_step x s), (pretty_N_go_step x (s +:+ rest)) by lia.
    rewrite IH by (apply N.div_lt; lia). reflexivity.
Qed.

Lemma pretty_N_go_startsWithDigit (x : N) : forall s,
  0 < x -> startsWithDigit (pretty_N_go x s) = true.
Proof.
  induction (N.lt_wf_0 x) as [x _ IH]; intros s Hx.
  rewrite pretty_N_go_step by lia.
  destruct (N.eq_dec (x `div` 10) 0) as [->|Hq].
  - rewrite pretty_N_go_0. simpl. apply isDigit_pretty_N_char.
  - apply IH.
    + apply N.div_lt; lia.
    + apply N.neq_0_lt_0. exact Hq.
Qed.

(** Reading back the digits that [pretty_N_go] puts in front of [s]. *)
Lemma mathInt_pretty_N_go (x : N) :
  exists k : N, forall acc s,
    JS.mathInt acc (JS.digitPrefix (pretty_N_go x s))
    = JS.mathInt (acc * 10 ^ k + x) (JS.digitPrefix s).
Proof.
  induction (N.lt_wf_0 x) as [x _ IH].
  destruct (N.eq_dec x 0) as [->|Hx].
  - exists 0. intros acc s. rewrite pretty_N_go_0. f_equal. lia.
  - destruct (IH (x `div` 10)) as [k Hk]; [apply N.div_lt; lia|].
    exists (N.succ k). intros acc s.
    rewrite pretty_N_go_step by lia. rewrite Hk. simpl.
    rewrite isDigit_pretty_N_char. simpl.
    rewrite digitValue_pretty_N_char by (apply N.mod_lt; lia).
    f_equal. rewrite N.pow_succ_r'.
    pose proof (N.div_mod x 10 ltac:(lia)). lia.
Qed.

Lemma mathInt_pretty_N (x : N) (rest : string) :
  startsWithDigit rest = false ->
  JS.mathInt 0 (JS.digitPrefix (pretty x +:+ rest)) = x.
Proof.
  intros Hrest. unfold pretty, pretty_N.
  destruct (decide (x = 0)) as [->|Hx].
  - change ("0" +:+ rest) with (String "0" rest). simpl.
    rewrite (digitPrefix_no_digit rest Hrest). reflexivity.
  - rewrite pretty_N_go_app. change ("" +:+ rest) with rest.
    destruct (mathInt_pretty_N_go x) as [k Hk]. rewrite Hk.
    rewrite (digitPrefix_no_digit rest Hrest). simpl. lia.
Qed.

Lemma pretty_N_startsWithDigit (x : N) (rest : string) :
  startsWithDigit (pretty x +:+ rest) = true.
Proof.
  unfold pretty, pretty_N.
  destruct (decide (x = 0)) as [->|Hx]; [reflexivity|].
  rewrite pretty_N_go_app. apply pretty_N_go_startsWithDigit. lia.
Qed.

End Decimal.

Section ParseInt.

Lemma isDigit_not_sign_or_space (c : ascii) :
  JS.isDigit c = true ->
  JS.isWhiteSpace c = false /\ Ascii.eqb c "+" = false /\ Ascii.eqb c "-" = false.
Proof.
  destruct c as [[] [] [] [] [] [] [] []]; vm_compute; intros H;
    first [discriminate H | repeat split].
Qed.

Lemma parseInt_startsWithDigit (str : string) :
  startsWithDigit str = true ->
  JS.parseInt str = JS.Num (Z.of_N (JS.mathInt 0 (JS.digitPrefix str))).
Proof.
  destruct str as [|c t]; simpl; [discriminate|]. intros Hc.
  destruct (isDigit_not_sign_or_space c Hc) as (Hs & Hp & Hm).
  unfold JS.parseInt. simpl. rewrite Hs, Hp, Hm. simpl. rewrite Hc.
  f_equal. apply Z.mul_1_l.
Qed.

Lemma parseInt_minus (str : string) :
  startsWithDigit str = true ->
  JS.parseInt (String "-" str) = JS.Num (- Z.of_N (JS.mathInt 0 (JS.digitPrefix str))).
Proof.
  destruct str as [|c t]; simpl; [discriminate|]. intros Hc.
  unfold JS.parseInt. simpl. rewrite Hc. reflexivity.
Qed.

Lemma parseInt_NaN (str : string) :
  hasLeadingInteger str = false -> JS.parseInt str = JS.NaN.
Proof.
  unfold hasLeadingInteger, JS.parseInt. intros H.
  assert (Hprefix :
    JS.digitPrefix
      match JS.trimStart str with
      | String c rest => if Ascii.eqb c "+" || Ascii.eqb c "-" then rest else JS.trimStart str
      | EmptyString => JS.trimStart str
      end = EmptyString).
  { apply digitPrefix_no_digit. unfold stripSign in H.
    destruct (JS.trimStart str) as [|c rest]; [reflexivity|].
    destruct (Ascii.eqb c "+" || Ascii.eqb c "-"); exact H. }
  rewrite Hprefix. reflexivity.
Qed.

(** [parseInt] reads a decimal integer back, whatever follows it. *)
Lemma parseInt_pretty (e : Z) (rest : string) :
  startsWithDigit rest = false ->
  JS.parseInt (pretty e +:+ rest) = JS.Num e.
Proof.
  intros Hrest. destruct e as [|p|p]; unfold pretty, pretty_Z.
  - change ("0" +:+ rest) with (String "0" rest).
    rewrite parseInt_startsWithDigit by reflexivity.
    simpl. rewrite (digitPrefix_no_digit rest Hrest). reflexivity.
  - change (pretty p) with (pretty (N.pos p)).
    rewrite parseInt_startsWithDigit by apply pretty_N_startsWithDigit.
    rewrite mathInt_pretty_N by exact Hrest. reflexivity.
  - change (pretty p) with (pretty (N.pos p)).
    change (("-" +:+ pretty (N.pos p)) +:+ rest)
      with (String "-" (pretty (N.pos p) +:+ rest)).
    rewrite parseInt_minus by apply pretty_N_startsWithDigit.
    rewrite mathInt_pretty_N by exact Hrest. reflexivity.
Qed.

Lemma append_empty_r (str : string) : str +:+ "" = str.
Proof.
  induction str as [|c t IH]; [reflexivity|].
  change (String c (t +:+ "") = String c t). rewrite IH. reflexivity.
Qed.

End ParseInt.

(** ** The Token Store *)

Section TokenStore.

Import TokenService.

Lemma pretty_Z_truthy (e : Z) (rest : string) :
  JS.truthy_string (Some (pretty e +:+ rest)) = true.
Proof.
  destruct e as [|p|p]; unfold pretty, pretty_Z; [reflexivity| |reflexivity].
  change (pretty p) with (pretty (N.pos p)).
  pose proof (pretty_N_startsWithDigit (N.pos p) rest) as H.
  destruct (pretty (N.pos p) +:+ rest); [discriminate H|reflexivity].
Qed.

Lemma getTokenExpiry_absent (s : State) :
  localStorage_getItem TOKEN_EXPIRY_KEY s = None -> getTokenExpiry s = None.
Proof. unfold getTokenExpiry. intros ->. reflexivity. Qed.

Lemma getTokenExpiry_stored (s : State) (str : string) :
  localStorage_getItem TOKEN_EXPIRY_KEY s = Some str ->
  getTokenExpiry s
  = if JS.truthy_string (Some str) then Some (JS.parseInt str) else None.
Proof. unfold getTokenExpiry. intros ->. reflexivity. Qed.

Lemma getTokenExpiry_integer (s : State) (e : Z) (rest : string) :
  localStorage_getItem TOKEN_EXPIRY_KEY s = Some (pretty e +:+ rest) ->
  startsWithDigit rest = false ->
  getTokenExpiry s = Some (JS.Num e).
Proof.
  intros Hget Hrest. rewrite (getTokenExpiry_stored _ _ Hget).
  rewrite pretty_Z_truthy, parseInt_pretty by exact Hrest. reflexivity.
Qed.

Lemma isTokenExpired_integer (now : Z) (s : State) (e : Z) :
  getTokenExpiry s = Some (JS.Num e) ->
  isTokenExpired now s = (e =? 0) || (e <=? now).
Proof.
  unfold isTokenExpired. intros ->. simpl.
  destruct (e =? 0); reflexivity.
Qed.

Lemma clearTokens_store_cleared (s : State) : store_cleared (clearTokens s).
Proof.
  unfold store_cleared, getToken, getRefreshToken, localStorage_getItem. simpl.
  repeat split.
  - rewrite !lookup_delete_ne by discriminate. apply lookup_delete_eq.
  - rewrite lookup_delete_ne by discriminate. apply lookup_delete_eq.
  - apply lookup_delete_eq.
Qed.

Lemma clearTokens_absent (s : State) :
  store_cleared s -> localStorage (clearTokens s) = localStorage s.
Proof.
  unfold store_cleared, getToken, getRefreshToken, localStorage_getItem.
  intros (Ht & Hr & He). simpl.
  rewrite (delete_id _ TOKEN_KEY) by exact Ht.
  rewrite (delete_id _ REFRESH_TOKEN_KEY) by exact Hr.
  apply delete_id. exact He.
Qed.

(** C9: after [clearTokens()] no token is reported and no expiry is
    returned, whatever the store held; clearing a second time, or clearing a
    store whose three entries are absent, leaves the store as it is.
    [clearTokens] is a total function: it has no failing case. *)
Theorem clearTokens_clears_and_is_idempotent (s : State) :
  hasToken (clearTokens s) = false /\
  getTokenExpiry (clearTokens s) = None /\
  localStorage (clearTokens (clearTokens s)) = localStorage (clearTokens s) /\
  (store_cleared s -> localStorage (clearTokens s) = localStorage s).
Proof.
  destruct (clearTokens_store_cleared s) as (Ht & Hr & He).
  split; [|split; [|split]].
  - unfold hasToken. rewrite Ht. reflexivity.
  - apply getTokenExpiry_absent. exact He.
  - apply clearTokens_absent. apply clearTokens_store_cleared.
  - apply clearTokens_absent.
Qed.

Lemma clearTokens_witness :
  store_cleared empty_state /\
  localStorage (clearTokens empty_state) = localStorage empty_state.
Proof.
  assert (H : store_cleared empty_state) by (repeat split).
  split; [exact H|].
  exact (proj2 (proj2 (proj2 (clearTokens_clears_and_is_idempotent empty_state))) H).
Defined.

Lemma setTokenExpiry_in_range (x : Z) (s : State) :
  Z.abs x < 10 ^ 21 ->
  getTokenExpiry (setTokenExpiry x s) = Some (JS.Num x).
Proof.
  intros Hx.
  apply (getTokenExpiry_integer _ x EmptyString); [|reflexivity].
  unfold setTokenExpiry, localStorage_getItem. simpl.
  rewrite lookup_insert_eq. unfold JS.Number_toString.
  destruct (Z.ltb_spec (Z.abs x) (10 ^ 21)) as [_|Hge]; [|lia].
  rewrite append_empty_r. reflexivity.
Qed.

Lemma isSafeInteger_below_1e21 (x : Z) : isSafeInteger x -> Z.abs x < 10 ^ 21.
Proof.
  unfold isSafeInteger, MAX_SAFE_INTEGER. intros Hx.
  change (10 ^ 21) with 1000000000000000000000. lia.
Qed.

Lemma Number_toString_safe (x : Z) :
  isSafeInteger x -> JS.Number_toString x = pretty x.
Proof.
  intros Hx. apply isSafeInteger_below_1e21 in Hx. unfold JS.Number_toString.
  destruct (Z.ltb_spec (Z.abs x) (10 ^ 21)) as [_|Hge]; [reflexivity|lia].
Qed.

(** C8 (as amended): for every integer [x] that a JavaScript number holds
    exactly (magnitude at most 2^53 - 1), which covers 0, negative values
    and 13-digit timestamps, [setTokenExpiry(x)] stores the decimal digits
    of [x] and [getTokenExpiry()] then returns exactly [x], whatever the
    store held before. *)
Theorem setTokenExpiry_getTokenExpiry (x : Z) (s : State) :
  isSafeInteger x ->
  getTokenExpiry (setTokenExpiry x s) = Some (JS.Num x) /\
  localStorage_getItem TOKEN_EXPIRY_KEY (setTokenExpiry x s) = Some (pretty x).
Proof.
  intros Hx.
  split; [apply setTokenExpiry_in_range, isSafeInteger_below_1e21; exact Hx|].
  unfold setTokenExpiry, localStorage_getItem. simpl.
  rewrite lookup_insert_eq, (Number_toString_safe x Hx). reflexivity.
Qed.

Lemma setTokenExpiry_getTokenExpiry_witness :
  getTokenExpiry (setTokenExpiry 0 empty_state) = Some (JS.Num 0) /\
  getTokenExpiry (setTokenExpiry 1700000000000 empty_state)
  = Some (JS.Num 1700000000000).
Proof.
  split.
  - apply (proj1 (setTokenExpiry_getTokenExpiry 0 empty_state
                    ltac:(unfold isSafeInteger, MAX_SAFE_INTEGER; simpl; lia))).
  - apply (proj1 (setTokenExpiry_getTokenExpiry 1700000000000 empty_state
                    ltac:(unfold isSafeInteger, MAX_SAFE_INTEGER; simpl; lia))).
Defined.

(** C8, where the claim fails: 10^21 is stored as the text [1e+21], of which
    [parseInt] reads the leading digit only. *)
Lemma setTokenExpiry_getTokenExpiry_1e21 :
  localStorage_getItem TOKEN_EXPIRY_KEY (setTokenExpiry (10 ^ 21) empty_state)
  = Some "1e+21" /\
  getTokenExpiry (setTokenExpiry (10 ^ 21) empty_state) = Some (JS.Num 1) /\
  getTokenExpiry (setTokenExpiry (10 ^ 21) empty_state) <> Some (JS.Num (10 ^ 21)).
Proof.
  assert (H : getTokenExpiry (setTokenExpiry (10 ^ 21) empty_state) = Some (JS.Num 1))
    by (vm_compute; reflexivity).
  split; [vm_compute; reflexivity|]. split; [exact H|].
  rewrite H. intros Heq. inversion Heq.
Qed.

(** C4 (as amended): [isTokenExpired()] returns true when no expiry entry is
    recorded, and when the recorded string has no integer at its front
    (the empty string, text, a sign alone: [parseInt] gives [NaN]).  When
    the recorded string is a decimal integer [e], followed or not by
    characters that are not digits, it returns true iff [e] is 0 or the
    current time is at least [e]; for a clock at or after the epoch that is:
    iff the current time is at least [e]. *)
Theorem isTokenExpired_by_recorded_expiry (now : Z) (s : State) :
  (localStorage_getItem TOKEN_EXPIRY_KEY s = None -> isTokenExpired now s = true) /\
  (forall str, localStorage_getItem TOKEN_EXPIRY_KEY s = Some str ->
     hasLeadingInteger str = false -> isTokenExpired now s = true) /\
  (forall e rest, localStorage_getItem TOKEN_EXPIRY_KEY s = Some (pretty e +:+ rest) ->
     startsWithDigit rest = false ->
     (isTokenExpired now s = true <-> e = 0 \/ e <= now)) /\
  (forall e, 0 <= now ->
     localStorage_getItem TOKEN_EXPIRY_KEY s = Some (pretty e) ->
     (isTokenExpired now s = true <-> e <= now)).
Proof.
  assert (Hinteger : forall e rest,
    localStorage_getItem TOKEN_EXPIRY_KEY s = Some (pretty e +:+ rest) ->
    startsWithDigit rest = false ->
    (isTokenExpired now s = true <-> e = 0 \/ e <= now)).
  { intros e rest Hget Hrest.
    rewrite (isTokenExpired_integer now s e)
      by (apply (getTokenExpiry_integer s e rest); assumption).
    rewrite orb_true_iff, Z.eqb_eq, Z.leb_le. reflexivity. }
  split; [|split; [|split]].
  - intros Hget. unfold isTokenExpired.
    rewrite (getTokenExpiry_absent s Hget). reflexivity.
  - intros str Hget Hstr. unfold isTokenExpired.
    rewrite (getTokenExpiry_stored s str Hget), (parseInt_NaN str Hstr).
    destruct (JS.truthy_string (Some str)); reflexivity.
  - exact Hinteger.
  - intros e Hnow Hget. rewrite <- (append_empty_r (pretty e)) in Hget.
    rewrite (Hinteger e EmptyString Hget eq_refl). lia.
Qed.

Lemma isTokenExpired_by_recorded_expiry_witness :
  isTokenExpired 1700000000000 (setTokenExpiry 1700000060000 empty_state) = true
  <-> 1700000060000 <= 1700000000000.
Proof.
  apply (proj2 (proj2 (proj2
    (isTokenExpired_by_recorded_expiry 1700000000000
       (setTokenExpiry 1700000060000 empty_state)))) 1700000060000).
  - lia.
  - reflexivity.
Defined.

(** C4, where the claim fails: the recorded string below is not numeric, yet
    [parseInt] reads the thirteen nines at its front and the token is
    reported as not expired. *)
Lemma isTokenExpired_malformed_expiry :
  let s := localStorage_setItem TOKEN_EXPIRY_KEY "9999999999999abc" empty_state in
  localStorage_getItem TOKEN_EXPIRY_KEY s = Some "9999999999999abc" /\
  isDecimalInteger "9999999999999abc" = false /\
  isTokenExpired 1700000000000 s = false.
Proof. vm_compute. repeat split. Qed.

End TokenStore.

(** ** The Session Coordinator *)

Section SessionCoordinator.

Import TokenService AuthService.

(** *** Which callbacks a request carries *)

Lemma pipe_login (p : Pending) : sent_by_login p -> pipe p = TapHandle_CatchFlag.
Proof. intros [r H]. unfold issued_by, login in H. injection H as _ _ <-. reflexivity. Qed.

Lemma pipe_signup (p : Pending) : sent_by_signup p -> pipe p = TapHandle_CatchFlag.
Proof. intros [r H]. unfold issued_by, signup in H. injection H as _ _ <-. reflexivity. Qed.

Lemma pipe_refreshToken (p : Pending) :
  sent_by_refreshToken p -> pipe p = TapHandle_CatchLogout.
Proof.
  intros [s H]. unfold issued_by, refreshToken in H.
  destruct (getRefreshToken s) as [value|]; [|discriminate H].
  destruct (JS.truthy_string (Some value)); simpl in H; [|discriminate H].
  injection H as _ _ <-. reflexivity.
Qed.

Lemma pipe_logout (p : Pending) : sent_by_logout p -> pipe p = ClearAuthObserver.
Proof.
  intros [s H]. unfold logout, http_post in H. simpl in H.
  rewrite last_snoc in H. injection H as <-. reflexivity.
Qed.

Lemma pipe_password_operation (p : Pending) :
  sent_by_password_operation p -> pipe p = Bare.
Proof.
  unfold issued_by, requestPasswordReset, resetPassword, changePassword.
  intros [[e H]|[(t & pw & H)|(o & pw & H)]]; injection H as _ _ <-; reflexivity.
Qed.

Lemma inflight_http_post (url : string) (body : Body) (pipe : Pipeline) (s : State) :
  inflight (http_post url body pipe s) !! length (inflight s)
  = Some (mkPending url body pipe).
Proof. simpl. apply list_lookup_middle. reflexivity. Qed.

(** *** The callbacks, one pipeline at a time *)

Lemma settle_clearAuth (now : Z) (n : nat) (outcome : Outcome) (s : State) (p : Pending) :
  inflight s !! n = Some p -> pipe p = ClearAuthObserver ->
  settle now n outcome s = Some (clearAuth (take_inflight n s), []).
Proof. unfold settle. intros -> ->. destruct outcome; reflexivity. Qed.

Lemma settle_bare (now : Z) (n : nat) (outcome : Outcome) (s : State) (p : Pending) :
  inflight s !! n = Some p -> pipe p = Bare ->
  settle now n outcome s = Some (take_inflight n s, [passed_through outcome]).
Proof. unfold settle. intros -> ->. destruct outcome; reflexivity. Qed.

Lemma settle_handle (now : Z) (n : nat) (response : Model.LoginResponse)
    (s : State) (p : Pending) :
  inflight s !! n = Some p ->
  pipe p = TapHandle_CatchFlag \/ pipe p = TapHandle_CatchLogout ->
  settle now n (Success (AuthPayload response)) s
  = Some (handleAuthResponse now response (take_inflight n s),
          [Next (AuthPayload response)]).
Proof. unfold settle. intros -> [-> | ->]; reflexivity. Qed.

Lemma settle_catch_flag (now : Z) (n : nat) (error : HttpError) (s : State) (p : Pending) :
  inflight s !! n = Some p -> pipe p = TapHandle_CatchFlag ->
  settle now n (Failure error) s
  = Some (authenticated_next false (take_inflight n s), [Error error]).
Proof. unfold settle. intros -> ->. reflexivity. Qed.

Lemma settle_catch_logout (now : Z) (n : nat) (error : HttpError) (s : State) (p : Pending) :
  inflight s !! n = Some p -> pipe p = TapHandle_CatchLogout ->
  settle now n (Failure error) s
  = Some (logout (take_inflight n s), [Error error]).
Proof. unfold settle. intros -> ->. reflexivity. Qed.

Lemma clearAuth_logged_out (s : State) : logged_out (clearAuth s).
Proof.
  unfold logged_out. repeat split; try reflexivity;
    apply (clearTokens_store_cleared s).
Qed.

Lemma handleAuthResponse_applied (now : Z) (response : Model.LoginResponse) (s : State) :
  auth_response_applied now response s (handleAuthResponse now response s).
Proof. repeat split. Qed.


(** *** Logout *)

Lemma logout_settles (now : Z) (outcome : Outcome) (s : State) :
  exists s',
    settle now (length (inflight s)) outcome (logout s) = Some (s', []) /\
    logged_out s'.
Proof.
  exists (clearAuth (take_inflight (length (inflight s)) (logout s))). split.
  - apply (settle_clearAuth now _ outcome (logout s) _ (inflight_http_post _ _ _ s)).
    reflexivity.
  - apply clearAuth_logged_out.
Qed.

(** C3: from every state, and whether the logout request succeeds or fails,
    once it settles the authenticated flag is false, the current user is
    absent and the three Token Store entries are absent. *)
Theorem logout_clears_on_either_outcome (now : Z) (s : State) :
  (forall value, exists s',
     settle now (length (inflight s)) (Success value) (logout s) = Some (s', []) /\
     authenticated s' = false /\
     currentUser s' = None /\
     TokenService.getToken s' = None /\
     getRefreshToken s' = None /\
     localStorage_getItem TOKEN_EXPIRY_KEY s' = None) /\
  (forall error, exists s',
     settle now (length (inflight s)) (Failure error) (logout s) = Some (s', []) /\
     authenticated s' = false /\
     currentUser s' = None /\
     TokenService.getToken s' = None /\
     getRefreshToken s' = None /\
     localStorage_getItem TOKEN_EXPIRY_KEY s' = None).
Proof.
  split; intros x.
  - exact (logout_settles now (Success x) s).
  - exact (logout_settles now (Failure x) s).
Qed.

(** *** Login and signup *)

(** C6: when a login or signup request fails, the authenticated stream is
    given [false], which is then its latest value, and the subscriber
    receives the very error the request failed with. *)
Theorem login_signup_failure_resets_flag (now : Z) (n : nat) (error : HttpError)
    (s : State) (p : Pending) :
  inflight s !! n = Some p ->
  sent_by_login p \/ sent_by_signup p ->
  exists s',
    settle now n (Failure error) s = Some (s', [Error error]) /\
    authenticated s' = false /\
    log s' = log s ++ [AuthenticatedNext false].
Proof.
  intros Hp Hsent.
  assert (Hpipe : pipe p = TapHandle_CatchFlag)
    by (destruct Hsent; [apply pipe_login | apply pipe_signup]; assumption).
  exists (authenticated_next false (take_inflight n s)).
  rewrite (settle_catch_flag now n error s p Hp Hpipe). repeat split.
Qed.

Lemma login_signup_failure_resets_flag_witness :
  exists s',
    settle 1700000001000 0 (Failure server_down)
      (fst (subscribe (signup alice_signup) alice_logged_in))
    = Some (s', [Error server_down]) /\
    authenticated s' = false /\
    log s' = log (fst (subscribe (signup alice_signup) alice_logged_in))
             ++ [AuthenticatedNext false].
Proof.
  apply (login_signup_failure_resets_flag 1700000001000 0 server_down
           (fst (subscribe (signup alice_signup) alice_logged_in))
           (mkPending (API_URL +:+ "/signup") (SignupBody alice_signup) TapHandle_CatchFlag)).
  - reflexivity.
  - right. exists alice_signup. reflexivity.
Defined.

(** C10: when a login or signup call fails, the Token Store and the current
    user are what they were before the call and the authenticated flag is
    false; a user left from an earlier login can therefore remain while the
    flag is false. *)
Theorem login_signup_failure_frame (now : Z) (error : HttpError) (s : State) :
  (forall loginRequest, exists s',
     settle now (length (inflight s)) (Failure error)
       (fst (subscribe (login loginRequest) s)) = Some (s', [Error error]) /\
     localStorage s' = localStorage s /\
     currentUser s' = currentUser s /\
     authenticated s' = false) /\
  (forall signupRequest, exists s',
     settle now (length (inflight s)) (Failure error)
       (fst (subscribe (signup signupRequest) s)) = Some (s', [Error error]) /\
     localStorage s' = localStorage s /\
     currentUser s' = currentUser s /\
     authenticated s' = false) /\
  (exists s0 s0',
     settle now (length (inflight s0)) (Failure error)
       (fst (subscribe (login alice_credentials) s0)) = Some (s0', [Error error]) /\
     currentUser s0' = Some alice /\
     authenticated s0' = false).
Proof.
  assert (Hframe : forall url body s1, exists s',
    settle now (length (inflight s1)) (Failure error)
      (http_post url body TapHandle_CatchFlag s1) = Some (s', [Error error]) /\
    localStorage s' = localStorage s1 /\
    currentUser s' = currentUser s1 /\
    authenticated s' = false).
  { intros u b s1. eexists. split.
    - apply (settle_catch_flag now _ error _ _ (inflight_http_post u b _ s1)).
      reflexivity.
    - repeat split. }
  split; [|split].
  - intros r. apply Hframe.
  - intros r. apply Hframe.
  - destruct (Hframe (API_URL +:+ "/login") (LoginBody alice_credentials) alice_logged_in)
      as (s' & Hs & _ & Hu & Ha).
    exists alice_logged_in, s'. split; [exact Hs|]. split; [|exact Ha].
    rewrite Hu. reflexivity.
Qed.

(** *** The shared auth-response handler *)

Lemma handleAuthResponse_entries (now : Z) (response : Model.LoginResponse) (s : State) :
  TokenService.getToken (handleAuthResponse now response s)
  = Some (Model.token response) /\
  getRefreshToken (handleAuthResponse now response s)
  = Some (Model.refreshToken response) /\
  localStorage_getItem TOKEN_EXPIRY_KEY (handleAuthResponse now response s)
  = Some (JS.Number_toString (now + Model.expiresIn response * 1000)).
Proof.
  unfold TokenService.getToken, getRefreshToken, localStorage_getItem. simpl.
  split; [|split].
  - rewrite !lookup_insert_ne by discriminate. apply lookup_insert_eq.
  - rewrite lookup_insert_ne by discriminate. apply lookup_insert_eq.
  - apply lookup_insert_eq.
Qed.



(** *** The synchronous snapshot *)

(** C7: [isAuthenticated()] is [hasToken() && !isTokenExpired()]; it gives
    the same answer whatever the cached flag and the current user are, and
    it is true exactly when the store holds a non-empty access token and an
    expiry that is a non-zero integer later than the current time. *)
Theorem isAuthenticated_recomputed_from_store (now : Z) (s : State) :
  isAuthenticated now s = hasToken s && negb (isTokenExpired now s) /\
  (forall user flag,
     isAuthenticated now
       (mkState (localStorage s) user flag (inflight s) (log s))
     = isAuthenticated now s) /\
  (isAuthenticated now s = true <->
     (exists t, TokenService.getToken s = Some t /\ t <> EmptyString) /\
     (exists e, getTokenExpiry s = Some (JS.Num e) /\ e <> 0 /\ now < e)).
Proof.
  split; [reflexivity|]. split; [reflexivity|].
  unfold isAuthenticated, hasToken, isTokenExpired.
  destruct (TokenService.getToken s) as [[|c t]|]; destruct (getTokenExpiry s) as [[|e]|]; simpl;
    try (split; [discriminate | intros [(t' & Ht & Hne) (e' & He & _)]; congruence]).
  destruct (Z.eqb_spec e 0) as [He0|He0]; simpl.
  - split; [discriminate|]. intros [_ (e' & He & Hne & _)]. congruence.
  - destruct (Z.leb_spec e now) as [Hle|Hlt]; simpl.
    + split; [discriminate|]. intros [_ (e' & He & _ & Hlt)].
      assert (e' = e) by congruence. lia.
    + split; [|reflexivity]. intros _. split.
      * exists (String c t). split; [reflexivity|discriminate].
      * exists e. repeat split; assumption.
Qed.

(** *** Refresh without a stored refresh token *)

(** C1 (as amended): when no refresh token is stored (the entry is absent or
    empty), [refreshToken()] sends no refresh request: it returns an
    observable that emits [null] at once on subscription, and the one
    request it sends is the logout notification.  Until that request
    settles the store and both streams are as before; once it settles,
    with either outcome, the authenticated flag is false and no token is
    reported. *)
Theorem refreshToken_without_refresh_token (now : Z) (outcome : Outcome) (s : State) :
  getRefreshToken s = None \/ getRefreshToken s = Some EmptyString ->
  exists s1,
    refreshToken s = (Of NullValue, s1) /\
    subscribe (Of NullValue) s1 = (s1, [Next NullValue]) /\
    log s1 = log s ++ [HttpPost (API_URL +:+ "/logout") EmptyBody] /\
    session_unchanged s s1 /\
    exists s2,
      settle now (length (inflight s)) outcome s1 = Some (s2, []) /\
      authenticated s2 = false /\
      hasToken s2 = false /\
      logged_out s2.
Proof.
  intros Hnone. exists (logout s).
  split; [unfold refreshToken; destruct Hnone as [-> | ->]; reflexivity|].
  split; [reflexivity|]. split; [reflexivity|]. split; [repeat split|].
  destruct (logout_settles now outcome s) as (s2 & Hs2 & Hout).
  exists s2. split; [exact Hs2|].
  destruct Hout as (Ha & Hu & Ht & Hr & He).
  split; [exact Ha|]. split; [|repeat split; assumption].
  unfold hasToken. rewrite Ht. reflexivity.
Qed.

Lemma refreshToken_without_refresh_token_witness :
  exists s1,
    refreshToken restored_without_refresh_token = (Of NullValue, s1) /\
    subscribe (Of NullValue) s1 = (s1, [Next NullValue]) /\
    log s1 = log restored_without_refresh_token
             ++ [HttpPost (API_URL +:+ "/logout") EmptyBody] /\
    session_unchanged restored_without_refresh_token s1 /\
    exists s2,
      settle 1700000001000 (length (inflight restored_without_refresh_token))
        (Failure server_down) s1 = Some (s2, []) /\
      authenticated s2 = false /\
      hasToken s2 = false /\
      logged_out s2.
Proof.
  apply (refreshToken_without_refresh_token 1700000001000 (Failure server_down)
           restored_without_refresh_token).
  left. reflexivity.
Defined.

(** C1, where the claim fails: in a tab restored with a valid access token
    and no refresh token, [refreshToken()] does send a request, the logout
    notification, and when it returns the flag is still true and the token
    is still reported. *)
Lemma refreshToken_without_refresh_token_posts_logout :
  getRefreshToken restored_without_refresh_token = None /\
  fst (refreshToken restored_without_refresh_token) = Of NullValue /\
  log restored_without_refresh_token = [AuthenticatedNext true] /\
  log (snd (refreshToken restored_without_refresh_token))
  = [AuthenticatedNext true; HttpPost "/api/auth/logout" EmptyBody] /\
  authenticated (snd (refreshToken restored_without_refresh_token)) = true /\
  hasToken (snd (refreshToken restored_without_refresh_token)) = true.
Proof. vm_compute. repeat split. Qed.

(** *** All seven operations *)

(** C2 (as amended): what happens when the request of an operation
    settles.  A successful login, signup or refresh writes the three entries
    and sets the user and the flag; where the arithmetic of the expiry is
    exact, the store is the old one with the three entries overwritten by
    the token, the refresh token and the digits of [now + expiresIn * 1000].
    A failed login or signup sets the flag
    to false and leaves the store and the current user as they are.  A
    failed refresh changes nothing by itself but sends the logout
    notification, and the session is cleared when that one settles.  Logout
    clears the store and both streams on either outcome.  The three password
    operations pass the outcome through and touch neither the store nor the
    streams. *)
Theorem settlement_by_operation (now : Z) (n : nat) (s : State) (p : Pending) :
  inflight s !! n = Some p ->
  (sent_by_login p \/ sent_by_signup p \/ sent_by_refreshToken p ->
     forall response, exists s',
       settle now n (Success (AuthPayload response)) s
       = Some (s', [Next (AuthPayload response)]) /\
       TokenService.getToken s' = Some (Model.token response) /\
       getRefreshToken s' = Some (Model.refreshToken response) /\
       localStorage_getItem TOKEN_EXPIRY_KEY s' <> None /\
       currentUser s' = Some (Model.user response) /\
       authenticated s' = true /\
       (exact_expiry now response -> auth_response_applied now response s s')) /\
  (sent_by_login p \/ sent_by_signup p ->
     forall error, exists s',
       settle now n (Failure error) s = Some (s', [Error error]) /\
       localStorage s' = localStorage s /\
       currentUser s' = currentUser s /\
       authenticated s' = false) /\
  (sent_by_refreshToken p ->
     forall error, exists s' m,
       settle now n (Failure error) s = Some (s', [Error error]) /\
       session_unchanged s s' /\
       log s' = log s ++ [HttpPost (API_URL +:+ "/logout") EmptyBody] /\
       forall later outcome, exists s'',
         settle later m outcome s' = Some (s'', []) /\ logged_out s'') /\
  (sent_by_logout p ->
     forall outcome, exists s',
       settle now n outcome s = Some (s', []) /\ logged_out s') /\
  (sent_by_password_operation p ->
     forall outcome, exists s',
       settle now n outcome s = Some (s', [passed_through outcome]) /\
       session_unchanged s s' /\
       log s' = log s).
Proof.
  intros Hp. split; [|split; [|split; [|split]]].
  - intros Hsent response.
    assert (Hpipe : pipe p = TapHandle_CatchFlag \/ pipe p = TapHandle_CatchLogout).
    { destruct Hsent as [H|[H|H]];
        [left; apply pipe_login | left; apply pipe_signup | right; apply pipe_refreshToken];
        exact H. }
    exists (handleAuthResponse now response (take_inflight n s)).
    split; [apply (settle_handle now n response s p Hp Hpipe)|].
    destruct (handleAuthResponse_entries now response (take_inflight n s))
      as (Htoken & Hrefresh & Hexpiry).
    split; [exact Htoken|]. split; [exact Hrefresh|].
    split; [rewrite Hexpiry; discriminate|].
    split; [reflexivity|]. split; [reflexivity|]. intros _.
    exact (handleAuthResponse_applied now response (take_inflight n s)).
  - intros Hsent error.
    assert (Hpipe : pipe p = TapHandle_CatchFlag)
      by (destruct Hsent; [apply pipe_login | apply pipe_signup]; assumption).
    exists (authenticated_next false (take_inflight n s)).
    rewrite (settle_catch_flag now n error s p Hp Hpipe). repeat split.
  - intros Hsent error.
    exists (logout (take_inflight n s)), (length (inflight (take_inflight n s))).
    rewrite (settle_catch_logout now n error s p Hp (pipe_refreshToken p Hsent)).
    split; [reflexivity|]. split; [repeat split|]. split; [reflexivity|].
    intros later outcome. apply logout_settles.
  - intros Hsent outcome.
    exists (clearAuth (take_inflight n s)).
    rewrite (settle_clearAuth now n outcome s p Hp (pipe_logout p Hsent)).
    split; [reflexivity|]. apply clearAuth_logged_out.
  - intros Hsent outcome.
    exists (take_inflight n s).
    rewrite (settle_bare now n outcome s p Hp (pipe_password_operation p Hsent)).
    repeat split.
Qed.

Lemma settlement_by_operation_witness :
  exists s',
    settle 1700000001000 0 (Failure server_down)
      (fst (subscribe (changePassword "old" "new") alice_logged_in))
    = Some (s', [passed_through (Failure server_down)]) /\
    session_unchanged (fst (subscribe (changePassword "old" "new") alice_logged_in)) s' /\
    log s' = log (fst (subscribe (changePassword "old" "new") alice_logged_in)).
Proof.
  apply (proj2 (proj2 (proj2 (proj2
    (settlement_by_operation 1700000001000 0
       (fst (subscribe (changePassword "old" "new") alice_logged_in))
       (mkPending (API_URL +:+ "/change-password")
          (ChangePasswordBody "old" "new") Bare)
       eq_refl))))).
  right. right. exists "old", "new". reflexivity.
Defined.

(** C2, where the claim fails: with Alice logged in, a failed login leaves
    her as the current user, and a failed password change leaves both the
    user and the flag as they were. *)
Lemma failure_leaves_streams :
  (exists s',
     settle 1700000001000 0 (Failure server_down)
       (fst (subscribe (login alice_credentials) alice_logged_in))
     = Some (s', [Error server_down]) /\
     currentUser s' = Some alice) /\
  (exists s',
     settle 1700000001000 0 (Failure server_down)
       (fst (subscribe (changePassword "old" "new") alice_logged_in))
     = Some (s', [Error server_down]) /\
     currentUser s' = Some alice /\
     authenticated s' = true).
Proof.
  split; eexists; (split; [vm_compute; reflexivity|]); vm_compute; repeat split.
Qed.

End SessionCoordinator.

(** ** More of the Token Store *)

Section TokenStoreEntries.

Import TokenService.

(** X1: [setToken(t)] followed by [getToken()] returns [t], whatever was
    stored; the refresh token, the expiry and both streams are untouched, and
    [hasToken()] is then true exactly when [t] is not the empty string. *)
Theorem setToken_getToken (t : string) (s : State) :
  TokenService.getToken (setToken t s) = Some t /\
  getRefreshToken (setToken t s) = getRefreshToken s /\
  getTokenExpiry (setToken t s) = getTokenExpiry s /\
  currentUser (setToken t s) = currentUser s /\
  authenticated (setToken t s) = authenticated s /\
  (hasToken (setToken t s) = true <-> t <> EmptyString).
Proof.
  assert (Hget : TokenService.getToken (setToken t s) = Some t)
    by apply lookup_insert_eq.
  split; [exact Hget|]. split; [|split; [|split; [reflexivity|split; [reflexivity|]]]].
  - unfold getRefreshToken, setToken, localStorage_getItem. simpl.
    apply lookup_insert_ne. discriminate.
  - unfold getTokenExpiry, setToken, localStorage_getItem. simpl.
    rewrite lookup_insert_ne by discriminate. reflexivity.
  - unfold hasToken. rewrite Hget. destruct t; simpl; split; congruence.
Qed.

(** X2: [setRefreshToken(r)] followed by [getRefreshToken()] returns [r];
    the access token, [hasToken()], the expiry and both streams are
    untouched. *)
Theorem setRefreshToken_getRefreshToken (r : string) (s : State) :
  getRefreshToken (setRefreshToken r s) = Some r /\
  TokenService.getToken (setRefreshToken r s) = TokenService.getToken s /\
  hasToken (setRefreshToken r s) = hasToken s /\
  getTokenExpiry (setRefreshToken r s) = getTokenExpiry s /\
  currentUser (setRefreshToken r s) = currentUser s /\
  authenticated (setRefreshToken r s) = authenticated s.
Proof.
  assert (Htok : TokenService.getToken (setRefreshToken r s) = TokenService.getToken s).
  { unfold TokenService.getToken, setRefreshToken, localStorage_getItem. simpl.
    apply lookup_insert_ne. discriminate. }
  split; [apply lookup_insert_eq|]. split; [exact Htok|].
  split; [unfold hasToken; rewrite Htok; reflexivity|].
  split; [|split; reflexivity].
  unfold getTokenExpiry, setRefreshToken, localStorage_getItem. simpl.
  rewrite lookup_insert_ne by discriminate. reflexivity.
Qed.

(** X3: the three setters write independent entries: in whatever order they
    run the store ends up the same, and writing an entry twice keeps the
    last value only. *)
Theorem setters_commute_and_overwrite (t r : string) (x : Z) (s : State) :
  localStorage (setTokenExpiry x (setRefreshToken r (setToken t s)))
  = localStorage (setToken t (setRefreshToken r (setTokenExpiry x s))) /\
  localStorage (setRefreshToken r (setToken t s))
  = localStorage (setToken t (setRefreshToken r s)) /\
  (forall t', localStorage (setToken t (setToken t' s)) = localStorage (setToken t s)) /\
  (forall r', localStorage (setRefreshToken r (setRefreshToken r' s))
              = localStorage (setRefreshToken r s)) /\
  (forall x', localStorage (setTokenExpiry x (setTokenExpiry x' s))
              = localStorage (setTokenExpiry x s)).
Proof.
  unfold setTokenExpiry, setRefreshToken, setToken. simpl.
  split; [|split; [|split; [|split]]].
  - rewrite (insert_insert_ne _ TOKEN_EXPIRY_KEY REFRESH_TOKEN_KEY) by discriminate.
    rewrite (insert_insert_ne _ TOKEN_EXPIRY_KEY TOKEN_KEY) by discriminate.
    rewrite (insert_insert_ne _ REFRESH_TOKEN_KEY TOKEN_KEY) by discriminate.
    reflexivity.
  - apply insert_insert_ne. discriminate.
  - intros t'. apply insert_insert_eq.
  - intros r'. apply insert_insert_eq.
  - intros x'. apply insert_insert_eq.
Qed.

Lemma foreign_key_setItem (key k v : string) (s : State) :
  key <> k ->
  localStorage_getItem key (localStorage_setItem k v s) = localStorage_getItem key s.
Proof. intros Hne. apply lookup_insert_ne. congruence. Qed.

Lemma foreign_key_removeItem (key k : string) (s : State) :
  key <> k ->
  localStorage_getItem key (localStorage_removeItem k s) = localStorage_getItem key s.
Proof. intros Hne. apply lookup_delete_ne. congruence. Qed.

Lemma foreign_key_clearTokens (key : string) (s : State) :
  foreign_key key ->
  localStorage_getItem key (clearTokens s) = localStorage_getItem key s.
Proof.
  intros (Ht & Hr & He). unfold clearTokens.
  rewrite !foreign_key_removeItem by assumption. reflexivity.
Qed.

(** X4: the Token Store writes and deletes only its own three entries: an
    entry of [localStorage] under any other key reads the same after each
    setter and after [clearTokens()]. *)
Theorem token_store_leaves_other_keys (key : string) (s : State) :
  foreign_key key ->
  (forall t, localStorage_getItem key (setToken t s) = localStorage_getItem key s) /\
  (forall r, localStorage_getItem key (setRefreshToken r s) = localStorage_getItem key s) /\
  (forall x, localStorage_getItem key (setTokenExpiry x s) = localStorage_getItem key s) /\
  localStorage_getItem key (clearTokens s) = localStorage_getItem key s.
Proof.
  intros Hkey. pose proof Hkey as (Ht & Hr & He).
  split; [|split; [|split]].
  - intros t. apply foreign_key_setItem. exact Ht.
  - intros r. apply foreign_key_setItem. exact Hr.
  - intros x. apply foreign_key_setItem. exact He.
  - apply foreign_key_clearTokens. exact Hkey.
Qed.

Lemma token_store_leaves_other_keys_witness :
  localStorage_getItem "theme"
    (clearTokens (localStorage_setItem "theme" "dark" empty_state))
  = localStorage_getItem "theme" (localStorage_setItem "theme" "dark" empty_state).
Proof.
  apply (proj2 (proj2 (proj2
    (token_store_leaves_other_keys "theme"
       (localStorage_setItem "theme" "dark" empty_state)
       ltac:(repeat split; discriminate))))).
Defined.

End TokenStoreEntries.

(** ** Start-up, refresh and the snapshot *)

Section CoordinatorLifeCycle.

Import TokenService AuthService.

Lemma isAuthenticated_reads_store (now : Z) (s s' : State) :
  localStorage s' = localStorage s ->
  isAuthenticated now s' = isAuthenticated now s.
Proof.
  intros H.
  unfold isAuthenticated, hasToken, isTokenExpired, getTokenExpiry,
    TokenService.getToken, localStorage_getItem.
  rewrite H. reflexivity.
Qed.

Lemma isAuthenticated_store_cleared (now : Z) (s : State) :
  store_cleared s -> isAuthenticated now s = false.
Proof.
  intros (Ht & _ & _). unfold isAuthenticated, hasToken. rewrite Ht. reflexivity.
Qed.

Lemma new_by_snapshot (now : Z) (storage : gmap string string) :
  new now storage
  = if isAuthenticated now (fresh storage)
    then authenticated_next true (fresh storage)
    else logout (fresh storage).
Proof. reflexivity. Qed.

(** X6: right after construction the cached flag says what the snapshot
    says, no user is set and the storage is as it was found.  A tab that
    finds a valid session sends nothing; any other tab sends the logout
    notification, and nothing else. *)
Theorem startup_flag_agrees_with_snapshot (now : Z) (storage : gmap string string) :
  authenticated (new now storage) = isAuthenticated now (new now storage) /\
  currentUser (new now storage) = None /\
  localStorage (new now storage) = storage /\
  (authenticated (new now storage) = true ->
   log (new now storage) = [AuthenticatedNext true] /\
   inflight (new now storage) = []) /\
  (authenticated (new now storage) = false ->
   log (new now storage) = [HttpPost (API_URL +:+ "/logout") EmptyBody] /\
   inflight (new now storage)
   = [mkPending (API_URL +:+ "/logout") EmptyBody ClearAuthObserver]).
Proof.
  rewrite new_by_snapshot.
  destruct (isAuthenticated now (fresh storage)) eqn:Hvalid.
  - rewrite (isAuthenticated_reads_store now (fresh storage)
               (authenticated_next true (fresh storage)) eq_refl), Hvalid.
    do 3 (split; [reflexivity|]).
    split; intros H; [split; reflexivity|discriminate H].
  - rewrite (isAuthenticated_reads_store now (fresh storage)
               (logout (fresh storage)) eq_refl), Hvalid.
    do 3 (split; [reflexivity|]).
    split; intros H; [discriminate H|split; reflexivity].
Qed.

(** X7: a tab that starts on a storage without a valid session (no access
    token, an empty one, no usable expiry or an expiry that has passed) is
    logged out as soon as its logout notification settles, with either
    outcome: the stale entries are removed. *)
Theorem startup_purges_invalid_session (now later : Z) (outcome : Outcome)
    (storage : gmap string string) :
  isAuthenticated now (fresh storage) = false ->
  exists s',
    settle later 0 outcome (new now storage) = Some (s', []) /\
    logged_out s' /\
    inflight s' = [].
Proof.
  intros Hinvalid. rewrite new_by_snapshot, Hinvalid.
  exists (clearAuth (take_inflight 0 (logout (fresh storage)))).
  split; [|split; [apply clearAuth_logged_out|reflexivity]].
  apply (settle_clearAuth later 0 outcome (logout (fresh storage))
           (mkPending (API_URL +:+ "/logout") EmptyBody ClearAuthObserver));
    reflexivity.
Qed.

Lemma startup_purges_invalid_session_witness :
  exists s',
    settle 1700000000500 0 (Failure server_down)
      (new 1700000000000
         (<["token_expiry" := "1600000000000"]> (<["auth_token" := "t"]> ∅)))
    = Some (s', []) /\
    logged_out s' /\
    inflight s' = [].
Proof.
  apply (startup_purges_invalid_session 1700000000000 1700000000500
           (Failure server_down)
           (<["token_expiry" := "1600000000000"]> (<["auth_token" := "t"]> ∅))).
  vm_compute. reflexivity.
Defined.

(** X8: with a non-empty refresh token [r] stored, [refreshToken()] changes
    nothing by itself and returns the POST to the refresh endpoint carrying
    [r].  Once subscribed the request is sent; if it succeeds the stored
    tokens are replaced by the new ones, and if it fails the error reaches
    the caller, the logout notification is sent and the session is cleared
    when that one settles. *)
Theorem refreshToken_with_stored_token (now : Z) (r : string) (s : State) :
  getRefreshToken s = Some r -> r <> EmptyString ->
  refreshToken s
  = (Post (API_URL +:+ "/refresh") (RefreshBody r) TapHandle_CatchLogout, s) /\
  log (call CallRefreshToken s)
  = log s ++ [HttpPost (API_URL +:+ "/refresh") (RefreshBody r)] /\
  session_unchanged s (call CallRefreshToken s) /\
  (forall response, exists s',
     settle now (length (inflight s)) (Success (AuthPayload response))
       (call CallRefreshToken s) = Some (s', [Next (AuthPayload response)]) /\
     TokenService.getToken s' = Some (Model.token response) /\
     getRefreshToken s' = Some (Model.refreshToken response) /\
     authenticated s' = true) /\
  (forall error later outcome, exists s' s'',
     settle now (length (inflight s)) (Failure error) (call CallRefreshToken s)
     = Some (s', [Error error]) /\
     session_unchanged s s' /\
     settle later (length (inflight s)) outcome s' = Some (s'', []) /\
     logged_out s'').
Proof.
  intros Hr Hne.
  assert (Hrefresh : refreshToken s
    = (Post (API_URL +:+ "/refresh") (RefreshBody r) TapHandle_CatchLogout, s)).
  { unfold refreshToken. rewrite Hr. destruct r; [congruence|reflexivity]. }
  assert (Hcall : call CallRefreshToken s
    = http_post (API_URL +:+ "/refresh") (RefreshBody r) TapHandle_CatchLogout s).
  { unfold call. rewrite Hrefresh. reflexivity. }
  rewrite Hcall.
  pose proof (inflight_http_post (API_URL +:+ "/refresh") (RefreshBody r)
                TapHandle_CatchLogout s) as Hin.
  split; [exact Hrefresh|]. split; [reflexivity|]. split; [repeat split|]. split.
  - intros response. eexists. split.
    + apply (settle_handle now _ response _ _ Hin). right. reflexivity.
    + unfold TokenService.getToken, getRefreshToken, localStorage_getItem. simpl.
      split; [|split; [|reflexivity]].
      * rewrite !lookup_insert_ne by discriminate. apply lookup_insert_eq.
      * rewrite lookup_insert_ne by discriminate. apply lookup_insert_eq.
  - intros error later outcome.
    rewrite (settle_catch_logout now _ error _ _ Hin eq_refl).
    set (s1 := take_inflight (length (inflight s))
                 (http_post (API_URL +:+ "/refresh") (RefreshBody r)
                    TapHandle_CatchLogout s)).
    assert (Hlen : length (inflight s1) = length (inflight s)).
    { unfold s1. simpl. rewrite length_delete, length_app; [simpl; lia|].
      rewrite list_lookup_middle by reflexivity. eauto. }
    destruct (logout_settles later outcome s1) as (s'' & Hs'' & Hout).
    exists (logout s1), s''. split; [reflexivity|]. split; [repeat split|].
    rewrite <- Hlen. split; assumption.
Qed.

Lemma refreshToken_with_stored_token_witness :
  refreshToken alice_logged_in
  = (Post (API_URL +:+ "/refresh") (RefreshBody "r") TapHandle_CatchLogout,
     alice_logged_in).
Proof.
  apply (refreshToken_with_stored_token 1700000030000 "r" alice_logged_in).
  - reflexivity.
  - discriminate.
Defined.

End CoordinatorLifeCycle.

(** ** The snapshot after a response, and what runs preserve *)

Section CoordinatorRuns.

Import TokenService AuthService.

Lemma pipe_auth_operation (p : Pending) :
  sent_by_login p \/ sent_by_signup p \/ sent_by_refreshToken p ->
  pipe p = TapHandle_CatchFlag \/ pipe p = TapHandle_CatchLogout.
Proof.
  intros [H|[H|H]];
    [left; apply pipe_login | left; apply pipe_signup | right; apply pipe_refreshToken];
    exact H.
Qed.

Lemma handleAuthResponse_getToken (now : Z) (response : Model.LoginResponse) (s : State) :
  TokenService.getToken (handleAuthResponse now response s) = Some (Model.token response).
Proof.
  unfold TokenService.getToken, localStorage_getItem. simpl.
  rewrite !lookup_insert_ne by discriminate. apply lookup_insert_eq.
Qed.

Lemma handleAuthResponse_getTokenExpiry (now : Z) (response : Model.LoginResponse)
    (s : State) :
  Z.abs (now + Model.expiresIn response * 1000) < 10 ^ 21 ->
  getTokenExpiry (handleAuthResponse now response s)
  = Some (JS.Num (now + Model.expiresIn response * 1000)).
Proof.
  intros Hrange.
  exact (setTokenExpiry_in_range (now + Model.expiresIn response * 1000)
           (setRefreshToken (Model.refreshToken response)
              (setToken (Model.token response) s)) Hrange).
Qed.

(** X9: after a successful login, signup or refresh whose response carries a
    non-empty access token and an expiry [now + expiresIn * 1000] that is
    not 0, the time, [expiresIn * 1000] and the expiry being safe integers,
    [isAuthenticated()] is true at every time before that expiry and false
    from the expiry on. *)
Theorem session_valid_until_expiry (now : Z) (n : nat)
    (response : Model.LoginResponse) (s : State) (p : Pending) :
  inflight s !! n = Some p ->
  sent_by_login p \/ sent_by_signup p \/ sent_by_refreshToken p ->
  Model.token response <> EmptyString ->
  now + Model.expiresIn response * 1000 <> 0 ->
  exact_expiry now response ->
  exists s',
    settle now n (Success (AuthPayload response)) s
    = Some (s', [Next (AuthPayload response)]) /\
    forall later,
      isAuthenticated later s' = (later <? now + Model.expiresIn response * 1000).
Proof.
  intros Hp Hsent Htoken Hnonzero (_ & _ & Hsafe).
  pose proof (isSafeInteger_below_1e21 _ Hsafe) as Hrange.
  exists (handleAuthResponse now response (take_inflight n s)).
  split; [apply (settle_handle now n response s p Hp (pipe_auth_operation p Hsent))|].
  intros later. unfold isAuthenticated, hasToken.
  rewrite handleAuthResponse_getToken.
  rewrite (isTokenExpired_integer later _ _
             (handleAuthResponse_getTokenExpiry now response _ Hrange)).
  destruct (Model.token response) as [|c t]; [congruence|]. simpl.
  destruct (Z.eqb_spec (now + Model.expiresIn response * 1000) 0) as [H0|_];
    [congruence|]. simpl.
  rewrite Z.ltb_antisym. reflexivity.
Qed.

Lemma session_valid_until_expiry_witness :
  exists s',
    settle 1700000000000 0 (Success (AuthPayload alice_response))
      (call (CallLogin alice_credentials) empty_state)
    = Some (s', [Next (AuthPayload alice_response)]) /\
    forall later,
      isAuthenticated later s'
      = (later <? 1700000000000 + Model.expiresIn alice_response * 1000).
Proof.
  apply (session_valid_until_expiry 1700000000000 0 alice_response
           (call (CallLogin alice_credentials) empty_state)
           (mkPending (API_URL +:+ "/login") (LoginBody alice_credentials)
              TapHandle_CatchFlag)).
  - reflexivity.
  - left. exists alice_credentials. reflexivity.
  - discriminate.
  - discriminate.
  - unfold exact_expiry, isSafeInteger, MAX_SAFE_INTEGER. simpl. lia.
Defined.

(** X10: the handler sets the flag to true without looking at the response:
    when the access token is empty, or when [expiresIn] is zero or negative,
    the authenticated stream holds true although [isAuthenticated()] is false
    at the time of the response and at every later time. *)
Theorem flag_true_snapshot_false (now : Z) (n : nat)
    (response : Model.LoginResponse) (s : State) (p : Pending) :
  inflight s !! n = Some p ->
  sent_by_login p \/ sent_by_signup p \/ sent_by_refreshToken p ->
  Model.token response = EmptyString \/
  (Model.expiresIn response <= 0 /\
   Z.abs (now + Model.expiresIn response * 1000) < 10 ^ 21) ->
  exists s',
    settle now n (Success (AuthPayload response)) s
    = Some (s', [Next (AuthPayload response)]) /\
    authenticated s' = true /\
    forall later, now <= later -> isAuthenticated later s' = false.
Proof.
  intros Hp Hsent Hbad.
  exists (handleAuthResponse now response (take_inflight n s)).
  split; [apply (settle_handle now n response s p Hp (pipe_auth_operation p Hsent))|].
  split; [reflexivity|].
  intros later Hlater. unfold isAuthenticated, hasToken.
  rewrite handleAuthResponse_getToken.
  destruct Hbad as [-> | [Hexp Hrange]]; [reflexivity|].
  rewrite (isTokenExpired_integer later _ _
             (handleAuthResponse_getTokenExpiry now response _ Hrange)).
  assert (Hle : (now + Model.expiresIn response * 1000 <=? later) = true)
    by (apply Z.leb_le; lia).
  rewrite Hle, orb_true_r. simpl. apply andb_false_r.
Qed.

Lemma flag_true_snapshot_false_witness :
  exists s',
    settle 1700000000000 0
      (Success (AuthPayload (Model.mkLoginResponse "t" "r" 0 alice)))
      (call (CallLogin alice_credentials) empty_state)
    = Some (s', [Next (AuthPayload (Model.mkLoginResponse "t" "r" 0 alice))]) /\
    authenticated s' = true /\
    forall later, 1700000000000 <= later -> isAuthenticated later s' = false.
Proof.
  apply (flag_true_snapshot_false 1700000000000 0
           (Model.mkLoginResponse "t" "r" 0 alice)
           (call (CallLogin alice_credentials) empty_state)
           (mkPending (API_URL +:+ "/login") (LoginBody alice_credentials)
              TapHandle_CatchFlag)).
  - reflexivity.
  - left. exists alice_credentials. reflexivity.
  - right. split; [simpl; lia|reflexivity].
Defined.

(** X11: a failed login or signup does not end a session that is still
    valid: the flag becomes false, yet the access token is the same and
    [isAuthenticated()] answers as before the failure, at every time. *)
Theorem failed_login_keeps_snapshot (now : Z) (n : nat) (error : HttpError)
    (s : State) (p : Pending) :
  inflight s !! n = Some p ->
  sent_by_login p \/ sent_by_signup p ->
  exists s',
    settle now n (Failure error) s = Some (s', [Error error]) /\
    authenticated s' = false /\
    AuthService.getToken s' = AuthService.getToken s /\
    getCurrentUser s' = getCurrentUser s /\
    forall later, isAuthenticated later s' = isAuthenticated later s.
Proof.
  intros Hp Hsent.
  assert (Hpipe : pipe p = TapHandle_CatchFlag)
    by (destruct Hsent; [apply pipe_login | apply pipe_signup]; assumption).
  exists (authenticated_next false (take_inflight n s)).
  rewrite (settle_catch_flag now n error s p Hp Hpipe).
  repeat split.
Qed.

Lemma failed_login_keeps_snapshot_witness :
  exists s',
    settle 1700000001000 0 (Failure server_down)
      (call (CallLogin alice_credentials) alice_logged_in)
    = Some (s', [Error server_down]) /\
    authenticated s' = false /\
    AuthService.getToken s' = AuthService.getToken (call (CallLogin alice_credentials) alice_logged_in) /\
    getCurrentUser s' = getCurrentUser (call (CallLogin alice_credentials) alice_logged_in) /\
    forall later,
      isAuthenticated later s'
      = isAuthenticated later (call (CallLogin alice_credentials) alice_logged_in).
Proof.
  apply (failed_login_keeps_snapshot 1700000001000 0 server_down
           (call (CallLogin alice_credentials) alice_logged_in)
           (mkPending (API_URL +:+ "/login") (LoginBody alice_credentials)
              TapHandle_CatchFlag)).
  - reflexivity.
  - left. exists alice_credentials. reflexivity.
Defined.

End CoordinatorRuns.

(** ** What every run preserves *)

Section CoordinatorInvariants.

Import TokenService AuthService.

(** The four things a settlement can do to the session. *)
Lemma settle_effect (now : Z) (n : nat) (outcome : Outcome) (s s' : State)
    (notes : list Notification) :
  settle now n outcome s = Some (s', notes) ->
  session_unchanged s s' \/
  (localStorage s' = localStorage s /\ currentUser s' = currentUser s /\
   authenticated s' = false) \/
  (exists response, s' = handleAuthResponse now response (take_inflight n s)) \/
  s' = clearAuth (take_inflight n s).
Proof.
  unfold settle. destruct (inflight s !! n) as [request|]; [|discriminate].
  destruct (pipe request), outcome as [[| response | text]|error];
    intros H; try discriminate H; injection H as <- _.
  all: try (left; repeat split; fail).
  all: try (right; left; repeat split; fail).
  all: try (right; right; left; exists response; reflexivity).
  all: right; right; right; reflexivity.
Qed.

Lemma call_session (c : Call) (s : State) : session_unchanged s (call c s).
Proof.
  destruct c; try (repeat split; fail).
  unfold call, refreshToken.
  destruct (getRefreshToken s) as [value|]; [|repeat split].
  destruct (JS.truthy_string (Some value)); repeat split.
Qed.

Lemma step_foreign_key (key : string) (e : Event) (s : State) :
  foreign_key key ->
  localStorage_getItem key (step e s) = localStorage_getItem key s.
Proof.
  intros Hkey. destruct e as [c|now n outcome]; simpl.
  - destruct (call_session c s) as (Hst & _ & _).
    unfold localStorage_getItem. rewrite Hst. reflexivity.
  - destruct (settle now n outcome s) as [[s' notes]|] eqn:Hsettle; [|reflexivity].
    destruct (settle_effect _ _ _ _ _ _ Hsettle)
      as [(Hst & _)|[(Hst & _)|[[response ->]| ->]]].
    + unfold localStorage_getItem. rewrite Hst. reflexivity.
    + unfold localStorage_getItem. rewrite Hst. reflexivity.
    + destruct Hkey as (Ht & Hr & He).
      unfold localStorage_getItem. simpl.
      rewrite !lookup_insert_ne by congruence. reflexivity.
    + exact (foreign_key_clearTokens key (take_inflight n s) Hkey).
Qed.

(** X12: whatever operations are called and however their requests settle,
    the coordinator never writes or deletes an entry of [localStorage] other
    than the three Token Store entries. *)
Theorem runs_leave_other_keys (key : string) (events : list Event) (s : State) :
  foreign_key key ->
  localStorage_getItem key (run events s) = localStorage_getItem key s.
Proof.
  intros Hkey. revert s.
  induction events as [|e events IH]; intros s; [reflexivity|].
  simpl. rewrite IH. apply step_foreign_key. exact Hkey.
Qed.

Lemma runs_leave_other_keys_witness :
  localStorage_getItem "theme"
    (run [Calls (CallLogin alice_credentials);
          Settles 1700000000000 0 (Success (AuthPayload alice_response));
          Calls CallLogout;
          Settles 1700000001000 0 (Failure server_down)]
       (localStorage_setItem "theme" "dark" empty_state))
  = localStorage_getItem "theme" (localStorage_setItem "theme" "dark" empty_state).
Proof.
  apply (runs_leave_other_keys "theme"). repeat split; discriminate.
Defined.

Lemma session_invariant_same_session (s s' : State) :
  session_unchanged s s' -> session_invariant s -> session_invariant s'.
Proof.
  intros (Hst & Hu & Ha). unfold session_invariant, TokenService.getToken,
    getRefreshToken, localStorage_getItem.
  rewrite Hst, Hu, Ha. tauto.
Qed.

Lemma session_invariant_step (e : Event) (s : State) :
  session_invariant s -> session_invariant (step e s).
Proof.
  intros Hinv. destruct e as [c|now n outcome]; simpl.
  - exact (session_invariant_same_session s _ (call_session c s) Hinv).
  - destruct (settle now n outcome s) as [[s' notes]|] eqn:Hsettle; [|exact Hinv].
    destruct (settle_effect _ _ _ _ _ _ Hsettle)
      as [Hsame|[(Hst & Hu & Ha)|[[response ->]| ->]]].
    + exact (session_invariant_same_session s s' Hsame Hinv).
    + destruct Hinv as [Huser _]. split; [|rewrite Ha; discriminate].
      unfold TokenService.getToken, getRefreshToken, localStorage_getItem in *.
      rewrite Hst, Hu. exact Huser.
    + assert (Hentries :
        TokenService.getToken (handleAuthResponse now response (take_inflight n s)) <> None /\
        getRefreshToken (handleAuthResponse now response (take_inflight n s)) <> None /\
        localStorage_getItem TOKEN_EXPIRY_KEY
          (handleAuthResponse now response (take_inflight n s)) <> None).
      { unfold TokenService.getToken, getRefreshToken, localStorage_getItem. simpl.
        rewrite lookup_insert_eq.
        rewrite (lookup_insert_ne _ TOKEN_EXPIRY_KEY REFRESH_TOKEN_KEY) by discriminate.
        rewrite lookup_insert_eq.
        rewrite (lookup_insert_ne _ TOKEN_EXPIRY_KEY TOKEN_KEY) by discriminate.
        rewrite (lookup_insert_ne _ REFRESH_TOKEN_KEY TOKEN_KEY) by discriminate.
        rewrite lookup_insert_eq. repeat split; discriminate. }
      split; intros _; tauto.
    + split; simpl; intros H; [congruence|discriminate H].
Qed.

Lemma session_invariant_new (now : Z) (storage : gmap string string) :
  session_invariant (new now storage).
Proof.
  unfold new, initializeAuth.
  destruct (hasToken _ && negb (isTokenExpired now _)) eqn:Hvalid.
  - apply andb_true_iff in Hvalid as [Htoken Hexpiry].
    split; [simpl; congruence|]. intros _.
    unfold hasToken, isTokenExpired, getTokenExpiry, TokenService.getToken,
      localStorage_getItem in *. simpl in *.
    split.
    + destruct (storage !! TOKEN_KEY); [discriminate|discriminate Htoken].
    + destruct (storage !! TOKEN_EXPIRY_KEY); [discriminate|discriminate Hexpiry].
  - split; simpl; intros H; [congruence|discriminate H].
Qed.

(** X13: in every state a tab can reach from its construction, by any calls
    of the seven operations and any settlements of their requests, a current
    user is present only together with the three Token Store entries, and
    the authenticated flag is true only while an access-token entry and an
    expiry entry are stored. *)
Theorem runs_keep_session_invariant (now : Z) (storage : gmap string string)
    (events : list Event) :
  session_invariant (run events (new now storage)).
Proof.
  generalize (session_invariant_new now storage).
  generalize (new now storage) as s.
  induction events as [|e events IH]; intros s Hinv; [exact Hinv|].
  simpl. apply IH. apply session_invariant_step. exact Hinv.
Qed.

(** X14: clearing the session removes the access token, the refresh token
    and the expiry, in this order, then gives [null] to the current-user
    stream and [false] to the authenticated stream.  It does so again on a
    session that is already cleared: the state of the session is the same
    after a second clearing, but both streams emit once more. *)
Theorem clearAuth_effects (s : State) :
  log (clearAuth s)
  = log s ++ [RemoveItem TOKEN_KEY; RemoveItem REFRESH_TOKEN_KEY;
              RemoveItem TOKEN_EXPIRY_KEY; CurrentUserNext None;
              AuthenticatedNext false] /\
  logged_out (clearAuth s) /\
  (forall now, isAuthenticated now (clearAuth s) = false) /\
  session_unchanged (clearAuth s) (clearAuth (clearAuth s)) /\
  log (clearAuth (clearAuth s)) <> log (clearAuth s).
Proof.
  assert (Hlog : forall s0, log (clearAuth s0)
    = log s0 ++ [RemoveItem TOKEN_KEY; RemoveItem REFRESH_TOKEN_KEY;
                 RemoveItem TOKEN_EXPIRY_KEY; CurrentUserNext None;
                 AuthenticatedNext false]).
  { intros s0. simpl. rewrite <- !app_assoc. reflexivity. }
  split; [apply Hlog|]. split; [apply clearAuth_logged_out|]. split; [|split].
  - intros now. apply isAuthenticated_store_cleared.
    apply (clearTokens_store_cleared s).
  - split; [|split; reflexivity].
    exact (clearTokens_absent (clearAuth s) (clearTokens_store_cleared s)).
  - rewrite (Hlog (clearAuth s)). intros Heq.
    apply (f_equal (@length Effect)) in Heq. rewrite length_app in Heq.
    simpl in Heq. lia.
Qed.

End CoordinatorInvariants.

(** ** Expiry and the passing of time *)

Section ExpiryInTime.

Import TokenService AuthService.

(** X15: with the store left as it is, time only moves a token towards
    expiry: once [isTokenExpired()] is true it is true at every later time,
    and if [isAuthenticated()] is true at some time it was true at every
    earlier time. *)
Theorem expiry_is_monotone (now later : Z) (s : State) :
  now <= later ->
  (isTokenExpired now s = true -> isTokenExpired later s = true) /\
  (isAuthenticated later s = true -> isAuthenticated now s = true).
Proof.
  intros Hle.
  assert (Hexp : isTokenExpired now s = true -> isTokenExpired later s = true).
  { unfold isTokenExpired.
    destruct (getTokenExpiry s) as [[|e]|]; simpl; try reflexivity.
    destruct (e =? 0); simpl; [reflexivity|].
    rewrite !Z.leb_le. lia. }
  split; [exact Hexp|].
  unfold isAuthenticated. rewrite !andb_true_iff, !negb_true_iff.
  intros [Htoken Hlater]. split; [exact Htoken|].
  destruct (isTokenExpired now s); [|reflexivity].
  rewrite Hexp in Hlater by reflexivity. discriminate Hlater.
Qed.

Lemma expiry_is_monotone_witness :
  (isTokenExpired 1700000060000 alice_logged_in = true ->
   isTokenExpired 1700000070000 alice_logged_in = true) /\
  (isAuthenticated 1700000070000 alice_logged_in = true ->
   isAuthenticated 1700000060000 alice_logged_in = true).
Proof.
  apply (expiry_is_monotone 1700000060000 1700000070000 alice_logged_in). lia.
Defined.

End ExpiryInTime.
